(** * readwise-mcp: the Readwise client, the credential lookup and the tool
      dispatcher, embedded from [src/services/readwise.ts] and [src/index.ts].

    Layout: JavaScript values and objects; the regular expression used on the
    [.env] file; [getApiToken] and the start-up token selection; the HTTP
    effect (a state-and-exception monad that records every request);
    [ReadwiseService]; the [CallToolRequestSchema] handler; then the theorems. *)

From Stdlib Require Import List String Ascii Bool ZArith Arith Lia.
From Stdlib Require Import DecimalString.
Import ListNotations.
Local Open Scope list_scope.
Local Open Scope string_scope.
Set Warnings "-register-all".

(* ================================================================== *)
(** ** JavaScript values *)
(* ================================================================== *)

Module JS.

(** The values that travel through the server: tool arguments decoded from
    JSON (or [undefined] when the caller sent none), request bodies and decoded
    response bodies.  Numbers are kept as integers: no operation of the program
    computes with them, they are only carried along.  An object is the list of
    its own enumerable properties in property order. *)
Inductive value : Type :=
| VUndefined
| VNull
| VBool (b : bool)
| VNum (n : Z)
| VStr (s : string)
| VArr (elems : list value)
| VObj (props : list (string * value)).

Definition object : Type := list (string * value).

(** [o[key]]: the value of the first own property named [key], [undefined]
    when there is none. *)
Fixpoint get (o : object) (key : string) : value :=
  match o with
  | [] => VUndefined
  | (k, v) :: rest => if String.eqb k key then v else get rest key
  end.

(** [o[key] = v]: overwrite the property in place, or add it at the end. *)
Fixpoint set (o : object) (key : string) (v : value) : object :=
  match o with
  | [] => [(key, v)]
  | (k, w) :: rest =>
      if String.eqb k key then (k, v) :: rest else (k, w) :: set rest key v
  end.

(** [Object.keys(o)]. *)
Definition keys (o : object) : list string := map fst o.

(** [key in o] for own properties. *)
Definition has (o : object) (key : string) : bool :=
  existsb (String.eqb key) (keys o).

(** The decimal name of an array index. *)
Definition index_name (i : nat) : string :=
  NilEmpty.string_of_uint (Nat.to_uint i).

Fixpoint indexed_from (i : nat) (vs : list value) : object :=
  match vs with
  | [] => []
  | v :: rest => (index_name i, v) :: indexed_from (S i) rest
  end.

(** The one-character strings that a string exposes as indexed properties. *)
Fixpoint chars (s : string) : list value :=
  match s with
  | EmptyString => []
  | String c rest => VStr (String c EmptyString) :: chars rest
  end.

(** Object spread [{ ...v }]: a copy of the own enumerable properties of [v].
    [undefined], [null], numbers and booleans have none; arrays and strings
    expose their indices. *)
Definition spread (v : value) : object :=
  match v with
  | VObj props => props
  | VArr elems => indexed_from 0 elems
  | VStr s => indexed_from 0 (chars s)
  | VUndefined | VNull | VBool _ | VNum _ => []
  end.

(** [v === ''] *)
Definition is_empty_string (v : value) : bool :=
  match v with
  | VStr EmptyString => true
  | _ => false
  end.

(** JavaScript truthiness of an optional string ([undefined] or a string). *)
Definition truthy (s : option string) : bool :=
  match s with
  | Some (String _ _) => true
  | _ => false
  end.

(** An [Error] instance, as far as the program looks at it: its [message]. *)
Record Error : Type := mkError { message : string }.

(** Completion of a computation: a value, or a thrown [Error]. *)
Inductive outcome (A : Type) : Type :=
| Returned (a : A)
| Thrown (e : Error).
Arguments Returned {A} a.
Arguments Thrown {A} e.

End JS.
Import JS.

(* ================================================================== *)
(** ** [ReadwiseService.cleanHighlightData] *)
(* ================================================================== *)

(** One round of the [forEach] callback: read the property, and overwrite it
    with [null] when it is the empty string. *)
Definition clean_key (cleanedHighlight : object) (key : string) : object :=
  let value := get cleanedHighlight key in
  if is_empty_string value then set cleanedHighlight key VNull
  else cleanedHighlight.

(** [cleanHighlightData(highlight)]: spread into a fresh object, then visit
    [Object.keys] of that copy. *)
Definition cleanHighlightData (highlight : value) : object :=
  let cleanedHighlight := spread highlight in
  fold_left clean_key (keys cleanedHighlight) cleanedHighlight.

(** What the callback does to a single property value. *)
Definition null_if_empty (v : value) : value :=
  if is_empty_string v then VNull else v.

(* ================================================================== *)
(** ** The regular expression of [getApiToken] *)
(* ================================================================== *)

Module Regex.

(** The fragment of JavaScript regular expressions that the program uses:
    literals, a character class under [?] or [+] (both greedy), sequence,
    ordered alternation and capture groups.  A character is one code unit
    below 256. *)
Inductive regex : Type :=
| Lit (s : string)
| Opt (cls : ascii -> bool)
| Plus (cls : ascii -> bool)
| Seq (r1 r2 : regex)
| Alt (r1 r2 : regex)
| Group (n : nat) (r : regex).

Definition captures : Type := list (nat * string).

(** [strip_prefix p s]: the rest of [s] after the literal [p]. *)
Fixpoint strip_prefix (p s : string) : option string :=
  match p, s with
  | EmptyString, _ => Some s
  | String a p', String b s' => if Ascii.eqb a b then strip_prefix p' s' else None
  | String _ _, EmptyString => None
  end.

(** The part of [s] that was consumed when [rest] is what remains. *)
Definition consumed (s rest : string) : string :=
  substring 0 (String.length s - String.length rest) s.

Section Backtracking.
Context {R : Type}.

(** [[cls]+]: take as many characters as possible, and give one back at a
    time while the continuation fails. *)
Fixpoint plus_from (cls : ascii -> bool) (s : string)
         (k : string -> option R) : option R :=
  match s with
  | String c rest =>
      if cls c then
        match plus_from cls rest k with
        | Some r => Some r
        | None => k rest
        end
      else None
  | EmptyString => None
  end.

(** Backtracking matcher in continuation-passing style: [k] is what must
    still match after [r]; the first success in priority order wins. *)
Fixpoint run (r : regex) (s : string) (caps : captures)
         (k : string -> captures -> option R) : option R :=
  match r with
  | Lit l =>
      match strip_prefix l s with
      | Some rest => k rest caps
      | None => None
      end
  | Opt cls =>
      match s with
      | String c rest =>
          if cls c then
            match k rest caps with
            | Some r => Some r
            | None => k s caps
            end
          else k s caps
      | EmptyString => k s caps
      end
  | Plus cls => plus_from cls s (fun rest => k rest caps)
  | Seq r1 r2 => run r1 s caps (fun s1 caps1 => run r2 s1 caps1 k)
  | Alt r1 r2 =>
      match run r1 s caps k with
      | Some r => Some r
      | None => run r2 s caps k
      end
  | Group n r1 =>
      run r1 s caps (fun rest caps1 => k rest ((n, consumed s rest) :: caps1))
  end.
End Backtracking.

(** [str.match(r)] for a regular expression without flags: the match at the
    leftmost start position that has one. *)
Fixpoint string_match (r : regex) (s : string) : option captures :=
  match run r s [] (fun _ caps => Some caps) with
  | Some caps => Some caps
  | None =>
      match s with
      | String _ rest => string_match r rest
      | EmptyString => None
      end
  end.

(** [match[n]]: the text of group [n], [undefined] when it took no part. *)
Fixpoint group (m : captures) (n : nat) : option string :=
  match m with
  | [] => None
  | (i, text) :: rest => if Nat.eqb i n then Some text else group rest n
  end.

End Regex.
Import Regex.

(* ================================================================== *)
(** ** Credential lookup: [getApiToken] and the start of [index.ts] *)
(* ================================================================== *)

Definition double_quote : ascii := "034"%char.
Definition single_quote : ascii := "039"%char.
Definition CR : ascii := "013"%char.
Definition LF : ascii := "010"%char.

(** The class of the two quote characters, written [[q]] below. *)
Definition is_quote (c : ascii) : bool :=
  Ascii.eqb c single_quote || Ascii.eqb c double_quote.

(** [[^q\r\n]]: anything but a quote, a carriage return or a line feed. *)
Definition is_value_char (c : ascii) : bool :=
  negb (is_quote c || Ascii.eqb c CR || Ascii.eqb c LF).

(** [\s] on code units below 256: tab, line feed, vertical tab, form feed,
    carriage return, space and no-break space. *)
Definition is_space (c : ascii) : bool :=
  let n := nat_of_ascii c in
  (Nat.leb 9 n && Nat.leb n 13) || Nat.eqb n 32 || Nat.eqb n 160.

(** [[^\s\r\n]] *)
Definition is_nonspace (c : ascii) : bool :=
  negb (is_space c || Ascii.eqb c CR || Ascii.eqb c LF).

(** [/READWISE_API_TOKEN=([q]?([^q\r\n]+)[q]?|([^\s\r\n]+))/], with [q] for
    the single and the double quote. *)
Definition token_regex : regex :=
  Seq (Lit "READWISE_API_TOKEN=")
      (Group 1 (Alt (Seq (Opt is_quote)
                         (Seq (Group 2 (Plus is_value_char)) (Opt is_quote)))
                    (Group 3 (Plus is_nonspace)))).

(** [a || b] on optional strings. *)
Definition or_else (a b : option string) : option string :=
  if truthy a then a else b.

(** What the process finds under the name [.env] in its working directory. *)
Inductive env_file : Type :=
| NoFile
| Unreadable (e : Error)
| Contents (text : string).

(** The body of the [try] block of [getApiToken]: [Returned (Some t)] is
    [return t], [Returned None] is falling out of the block. *)
Definition read_env_file (dotenv : env_file) : outcome (option string) :=
  match dotenv with
  | NoFile => Returned None
  | Unreadable e => Thrown e
  | Contents envFile =>
      match string_match token_regex envFile with
      | Some m =>
          match or_else (group m 2) (group m 3) with
          | Some (String c t) => Returned (Some (String c t))
          | _ => Returned None
          end
      | None => Returned None
      end
  end.

Definition token_not_found : Error :=
  mkError "Readwise API token not found. Please provide it as a command-line argument or environment variable.".

(** [getApiToken()].  [env_token] is [process.env.READWISE_API_TOKEN] at the
    time of the call. *)
Definition getApiToken (env_token : option string) (dotenv : env_file)
  : outcome string :=
  match env_token with
  | Some (String c t) => Returned (String c t)
  | _ =>
      match read_env_file dotenv with
      | Returned (Some token) => Returned token
      | Returned None | Thrown _ => Thrown token_not_found
      end
  end.

(** [args.length > 0 ? args[0] : getApiToken()], with [args] the command line
    after [process.argv.slice(2)]. *)
Definition resolve_apiToken (args : list string) (env_token : option string)
           (dotenv : env_file) : outcome string :=
  if Nat.ltb 0 (List.length args) then Returned (nth 0 args EmptyString)
  else getApiToken env_token dotenv.

(** The double quote as a one-character string. *)
Definition dq : string := String double_quote EmptyString.

(** The start of [index.ts] as the operator sees it.  Importing
    [./services/readwise] first runs that module's top level, whose last
    statement [export default new ReadwiseService(getApiToken())] calls
    [getApiToken] with no regard to the command line; a throw there ends the
    process before the [try] around the token selection is reached. *)
Inductive startup : Type :=
| ImportFailed (e : Error)
| Exited (code : Z)
| Started (apiToken : string).

Definition index_startup (args : list string) (env_token : option string)
           (dotenv : env_file) : startup :=
  match getApiToken env_token dotenv with
  | Thrown e => ImportFailed e
  | Returned _ =>
      match resolve_apiToken args env_token dotenv with
      | Returned apiToken => Started apiToken
      | Thrown _ => Exited 1
      end
  end.

(* ================================================================== *)
(** ** The HTTP effect *)
(* ================================================================== *)

Module Http.

Inductive http_method : Type := GET | POST.

(** What [axios] puts on the wire. *)
Record request : Type := mkRequest {
  req_method : http_method;
  req_baseURL : string;
  req_url : string;
  req_headers : list (string * string);
  req_data : option value
}.

(** The outside world: how the upstream service answers a request, given the
    requests it has already seen (the decoded body of a 2xx response, or the
    error [axios] rejects with), and the requests sent so far, oldest first. *)
Record world : Type := mkWorld {
  upstream : list request -> request -> outcome value;
  sent : list request
}.

(** An [async] computation: it may send requests, and it fulfils or rejects. *)
Definition Promise (A : Type) : Type := world -> outcome A * world.

Definition ret {A : Type} (a : A) : Promise A := fun w => (Returned a, w).

Definition throw {A : Type} (e : Error) : Promise A := fun w => (Thrown e, w).

Definition bind {A B : Type} (m : Promise A) (f : A -> Promise B) : Promise B :=
  fun w =>
    match m w with
    | (Returned a, w') => f a w'
    | (Thrown e, w') => (Thrown e, w')
    end.

(** [try { body } catch (error) { handler }] *)
Definition try_catch {A : Type} (body : Promise A) (handler : Error -> Promise A)
  : Promise A :=
  fun w =>
    match body w with
    | (Returned a, w') => (Returned a, w')
    | (Thrown e, w') => handler e w'
    end.

(** A synchronous step that may throw, inside an [async] function. *)
Definition lift {A : Type} (o : outcome A) : Promise A := fun w => (o, w).

(** Sending one request and awaiting [response.data]. *)
Definition send (req : request) : Promise value :=
  fun w => (upstream w (sent w) req,
            {| upstream := upstream w; sent := sent w ++ [req] |}).

End Http.
Import Http.

Declare Scope promise_scope.
Delimit Scope promise_scope with promise.
Notation "x <- m ;; k" := (bind m (fun x => k))
  (at level 61, m at next level, right associativity) : promise_scope.
Local Open Scope promise_scope.

(* ================================================================== *)
(** ** [readwise.ts]: the client *)
(* ================================================================== *)

Definition READWISE_API_BASE_URL : string := "https://readwise.io/api/v2".

(** The configured [axios] instance. *)
Record AxiosInstance : Type := mkAxios {
  baseURL : string;
  headers : list (string * string)
}.

Definition initReadwiseApi (apiToken : string) : AxiosInstance :=
  {| baseURL := READWISE_API_BASE_URL;
     headers := [("Authorization", ("Token " ++ apiToken)%string);
                 ("Content-Type", "application/json")] |}.

Definition axios_post (api : AxiosInstance) (url : string) (data : value)
  : Promise value :=
  send (mkRequest POST (baseURL api) url (headers api) (Some data)).

Definition axios_get (api : AxiosInstance) (url : string) : Promise value :=
  send (mkRequest GET (baseURL api) url (headers api) None).

Record ReadwiseService : Type := mkService { api : AxiosInstance }.

(** [new ReadwiseService(apiToken)] *)
Definition new_ReadwiseService (apiToken : string) : ReadwiseService :=
  {| api := initReadwiseApi apiToken |}.

(** [highlights.map(f)] on whatever value [highlights] is.  Only arrays have a
    callable [map] here: values decoded from JSON hold no functions. *)
Definition call_map (f : value -> value) (highlights : value)
  : outcome (list value) :=
  match highlights with
  | VArr elems => Returned (map f elems)
  | VUndefined =>
      Thrown (mkError "Cannot read properties of undefined (reading 'map')")
  | VNull => Thrown (mkError "Cannot read properties of null (reading 'map')")
  | VBool _ | VNum _ | VStr _ | VObj _ =>
      Thrown (mkError "highlights.map is not a function")
  end.

(** [createHighlight(highlight)].  The [console] calls are left out: they
    write to the terminal only. *)
Definition createHighlight (this : ReadwiseService) (highlight : value)
  : Promise value :=
  try_catch
    (let cleanedHighlight := cleanHighlightData highlight in
     response_data <- axios_post (api this) "/highlights/"
                        (VObj [("highlights", VArr [VObj cleanedHighlight])]) ;;
     ret response_data)
    (fun error => throw error).

(** [createHighlights(highlights)] *)
Definition createHighlights (this : ReadwiseService) (highlights : value)
  : Promise value :=
  try_catch
    (cleanedHighlights <-
       lift (call_map (fun highlight => VObj (cleanHighlightData highlight))
                      highlights) ;;
     response_data <- axios_post (api this) "/highlights/"
                        (VObj [("highlights", VArr cleanedHighlights)]) ;;
     ret response_data)
    (fun error => throw error).

(** [getHighlights()] *)
Definition getHighlights (this : ReadwiseService) : Promise value :=
  try_catch
    (response_data <- axios_get (api this) "/highlights/" ;;
     ret response_data)
    (fun error => throw error).

(* ================================================================== *)
(** ** [index.ts]: the [CallToolRequestSchema] handler *)
(* ================================================================== *)

Record content_item : Type := mkContent { type : string; text : string }.

Record ToolInvocationResult : Type := mkResult {
  content : list content_item;
  isError : bool
}.

(** [params.highlights] on the tool arguments: a [TypeError] on [undefined]
    and [null], the own property on an object, [undefined] on anything else. *)
Definition member_highlights (params : value) : outcome value :=
  match params with
  | VUndefined =>
      Thrown (mkError "Cannot read properties of undefined (reading 'highlights')")
  | VNull =>
      Thrown (mkError "Cannot read properties of null (reading 'highlights')")
  | VObj props => Returned (get props "highlights")
  | VBool _ | VNum _ | VStr _ | VArr _ => Returned VUndefined
  end.

Section Handler.

(** [JSON.stringify(result, null, 2)], a built-in of the runtime. *)
Variable JSON_stringify : value -> string.

(** The client built at start-up from the resolved token. *)
Variable readwiseService : ReadwiseService.

Definition success (result : value) : ToolInvocationResult :=
  {| content := [ {| type := "text"; text := JSON_stringify result |} ];
     isError := false |}.

Definition failure (error : Error) : ToolInvocationResult :=
  {| content := [ {| type := "text"; text := ("Error: " ++ message error)%string |} ];
     isError := true |}.

(** The body of the handler's [try] block. *)
Definition handler_body (name : string) (arguments : value)
  : Promise ToolInvocationResult :=
  if String.eqb name "create_highlight" then
    let params := arguments in
    result <- createHighlight readwiseService params ;;
    ret (success result)
  else if String.eqb name "create_highlights" then
    let params := arguments in
    highlights <- lift (member_highlights params) ;;
    result <- createHighlights readwiseService highlights ;;
    ret (success result)
  else if String.eqb name "get_highlights" then
    result <- getHighlights readwiseService ;;
    ret (success result)
  else
    throw (mkError ("Unknown tool: " ++ name)%string).

(** The handler registered for [CallToolRequestSchema], the dispatcher's
    [invoke]: [name] is [request.params.name], [arguments] is
    [request.params.arguments]. *)
Definition invoke (name : string) (arguments : value)
  : Promise ToolInvocationResult :=
  try_catch (handler_body name arguments)
            (fun error => ret (failure error)).

End Handler.

(* ================================================================== *)
(** ** [index.ts]: the tool registry and the resource handlers *)
(* ================================================================== *)






(* ================================================================== *)
(** ** Vocabulary of the statements *)
(* ================================================================== *)

(** The request of the create endpoint: [POST /highlights/] on the client's
    instance, with body [{ highlights: [...] }]. *)
Definition post_highlights (this : ReadwiseService) (highlights : list value)
  : request :=
  mkRequest POST (baseURL (api this)) "/highlights/" (headers (api this))
            (Some (VObj [("highlights", VArr highlights)])).

(** The request of the list endpoint: [GET /highlights/], no body. *)
Definition get_all_highlights (this : ReadwiseService) : request :=
  mkRequest GET (baseURL (api this)) "/highlights/" (headers (api this)) None.

(** The world after one more request went out. *)
Definition after_sending (w : world) (req : request) : world :=
  {| upstream := upstream w; sent := (sent w ++ [req])%list |}.

(** The three tool names of the registry. *)
Definition known_tool (name : string) : bool :=
  String.eqb name "create_highlight" || String.eqb name "create_highlights"
  || String.eqb name "get_highlights".


(** Every character of [s] belongs to [cls]. *)
Fixpoint all_chars (cls : ascii -> bool) (s : string) : bool :=
  match s with
  | String c rest => cls c && all_chars cls rest
  | EmptyString => true
  end.


(** Neither a carriage return nor a line feed. *)
Definition not_line_break (c : ascii) : bool :=
  negb (Ascii.eqb c CR || Ascii.eqb c LF).

(** The headers of every request of a client built from [apiToken]. *)
Definition token_headers (apiToken : string) : list (string * string) :=
  [("Authorization", "Token " ++ apiToken);
   ("Content-Type", "application/json")].

(** The error text that the dispatcher reserves for names it does not know. *)
Definition unknown_tool (name : string) : Error :=
  mkError ("Unknown tool: " ++ name).

(** How the handler closes a run of a client method: the serialized response
    on success, the error text on failure. *)
Definition settle (JSON_stringify : value -> string)
           (r : outcome value * world) : outcome ToolInvocationResult * world :=
  match r with
  | (Returned result, w') => (Returned (success JSON_stringify result), w')
  | (Thrown e, w') => (Returned (failure e), w')
  end.

(** Sample data for the closed instances below. *)
Definition sample_service : ReadwiseService := new_ReadwiseService "secret".

Definition accepting_world : world :=
  {| upstream := fun _ _ => Returned (VArr [VObj [("id", VNum 1)]]); sent := [] |}.

Definition unauthorized : Error :=
  mkError "Request failed with status code 401".

Definition rejecting_world : world :=
  {| upstream := fun _ _ => Thrown unauthorized; sent := [] |}.

Definition three_highlights : value :=
  VArr [VObj [("id", VNum 1); ("text", VStr "a")];
        VObj [("id", VNum 2); ("text", VStr "b")];
        VObj [("id", VNum 3); ("text", VStr "c")]].

Definition listing_world : world :=
  {| upstream := fun _ _ => Returned three_highlights; sent := [] |}.

(** A stand-in serializer for the closed instances: it tells values apart by
    their outermost shape only. *)
Definition sample_stringify (v : value) : string :=
  match v with
  | VUndefined => "undefined"
  | VNull => "null"
  | VBool _ => "bool"
  | VNum _ => "number"
  | VStr s => s
  | VArr _ => "[...]"
  | VObj _ => "{...}"
  end.

(* ================================================================== *)
(** * Properties *)
(* ================================================================== *)

(** ** Objects *)

Lemma get_set_same (o : object) (key : string) (v : value) :
  get (set o key v) key = v.
Proof.
  induction o as [|[k w] rest IH]; simpl.
  - now rewrite String.eqb_refl.
  - destruct (String.eqb k key) eqn:E; simpl; now rewrite E.
Qed.

Lemma get_set_other (o : object) (key key' : string) (v : value) :
  key <> key' -> get (set o key v) key' = get o key'.
Proof.
  intros Hne. induction o as [|[k w] rest IH]; simpl.
  - destruct (String.eqb key key') eqn:E; [|reflexivity].
    apply String.eqb_eq in E. contradiction.
  - destruct (String.eqb k key) eqn:E; simpl.
    + apply String.eqb_eq in E. subst k.
      destruct (String.eqb key key') eqn:E'; [|reflexivity].
      apply String.eqb_eq in E'. contradiction.
    + now rewrite IH.
Qed.

Lemma get_absent (o : object) (key : string) :
  ~ In key (keys o) -> get o key = VUndefined.
Proof.
  induction o as [|[k w] rest IH]; simpl; intros Hn; [reflexivity|].
  destruct (String.eqb k key) eqn:E.
  - apply String.eqb_eq in E. tauto.
  - apply IH. tauto.
Qed.

Lemma has_true_iff (o : object) (key : string) :
  has o key = true <-> In key (keys o).
Proof.
  unfold has. rewrite existsb_exists. split.
  - intros [k [Hin E]]. apply String.eqb_eq in E. now subst.
  - intros Hin. exists key. split; [assumption | apply String.eqb_refl].
Qed.

Lemma keys_set_present (o : object) (key : string) (v : value) :
  get o key <> VUndefined -> keys (set o key v) = keys o.
Proof.
  induction o as [|[k w] rest IH]; simpl; intros Hg.
  - congruence.
  - destruct (String.eqb k key) eqn:E; simpl; [reflexivity|].
    f_equal. now apply IH.
Qed.

(** ** [cleanHighlightData] *)

Lemma null_if_empty_not_empty (v : value) :
  is_empty_string (null_if_empty v) = false.
Proof.
  unfold null_if_empty. destruct (is_empty_string v) eqn:E; [reflexivity | exact E].
Qed.

Lemma null_if_empty_idem (v : value) :
  null_if_empty (null_if_empty v) = null_if_empty v.
Proof.
  unfold null_if_empty at 1. now rewrite null_if_empty_not_empty.
Qed.

Lemma null_if_empty_keeps (v : value) :
  v <> VStr EmptyString -> null_if_empty v = v.
Proof.
  intros Hv. unfold null_if_empty.
  destruct v as [| | | |s| |]; try reflexivity.
  destruct s; [congruence | reflexivity].
Qed.

Lemma is_empty_string_true (v : value) :
  is_empty_string v = true <-> v = VStr EmptyString.
Proof.
  split.
  - destruct v as [| | | |s| |]; simpl; try discriminate.
    destruct s; [reflexivity | discriminate].
  - intros ->. reflexivity.
Qed.

Lemma get_clean_key (o : object) (key key' : string) :
  get (clean_key o key) key' =
  if String.eqb key key' then null_if_empty (get o key') else get o key'.
Proof.
  unfold clean_key, null_if_empty.
  destruct (String.eqb key key') eqn:E.
  - apply String.eqb_eq in E. subst key'.
    destruct (is_empty_string (get o key)); [apply get_set_same | reflexivity].
  - assert (key <> key') by (intros ->; rewrite String.eqb_refl in E; discriminate).
    destruct (is_empty_string (get o key)); [now apply get_set_other | reflexivity].
Qed.

Lemma keys_clean_key (o : object) (key : string) :
  keys (clean_key o key) = keys o.
Proof.
  unfold clean_key. destruct (is_empty_string (get o key)) eqn:E; [|reflexivity].
  apply keys_set_present. apply is_empty_string_true in E. congruence.
Qed.

Lemma get_fold_clean (ks : list string) (o : object) (key : string) :
  get (fold_left clean_key ks o) key =
  if existsb (String.eqb key) ks then null_if_empty (get o key) else get o key.
Proof.
  revert o. induction ks as [|k ks IH]; intros o; simpl; [reflexivity|].
  rewrite IH, get_clean_key, (String.eqb_sym key k).
  destruct (String.eqb k key), (existsb (String.eqb key) ks); simpl;
    auto using null_if_empty_idem.
Qed.

Lemma keys_fold_clean (ks : list string) (o : object) :
  keys (fold_left clean_key ks o) = keys o.
Proof.
  revert o. induction ks as [|k ks IH]; intros o; simpl; [reflexivity|].
  now rewrite IH, keys_clean_key.
Qed.

(** Reading a property of the cleaned copy: the original value, with [null]
    in place of the empty string. *)
Lemma get_cleanHighlightData (highlight : value) (key : string) :
  get (cleanHighlightData highlight) key =
  null_if_empty (get (spread highlight) key).
Proof.
  unfold cleanHighlightData. rewrite get_fold_clean.
  destruct (existsb (String.eqb key) (keys (spread highlight))) eqn:E;
    [reflexivity|].
  rewrite get_absent; [reflexivity|].
  intros Hin. apply has_true_iff in Hin. unfold has in Hin. congruence.
Qed.

(** The cleaned copy has exactly the properties of the original, in order. *)
Lemma keys_cleanHighlightData (highlight : value) :
  keys (cleanHighlightData highlight) = keys (spread highlight).
Proof. unfold cleanHighlightData. apply keys_fold_clean. Qed.

Lemma fold_clean_fixed (ks : list string) (o : object) :
  (forall key, is_empty_string (get o key) = false) ->
  fold_left clean_key ks o = o.
Proof.
  intros Hne. induction ks as [|k ks IH]; simpl; [reflexivity|].
  unfold clean_key at 2. now rewrite Hne.
Qed.

(** On an object without repeated property names the loop is a map over the
    properties. *)
Lemma fold_clean_cons (ks : list string) (k : string) (v : value) (o : object) :
  ~ In k ks ->
  fold_left clean_key ks ((k, v) :: o) = (k, v) :: fold_left clean_key ks o.
Proof.
  revert o. induction ks as [|k' ks IH]; intros o Hn; simpl; [reflexivity|].
  simpl in Hn.
  assert (E : String.eqb k k' = false).
  { apply String.eqb_neq. intros ->. tauto. }
  replace (clean_key ((k, v) :: o) k') with ((k, v) :: clean_key o k').
  - apply IH. tauto.
  - unfold clean_key. simpl. rewrite E.
    destruct (is_empty_string (get o k')); reflexivity.
Qed.

Lemma cleanHighlightData_map (props : list (string * value)) :
  NoDup (keys props) ->
  cleanHighlightData (VObj props) =
  map (fun kv => (fst kv, null_if_empty (snd kv))) props.
Proof.
  unfold cleanHighlightData. simpl.
  induction props as [|[k v] rest IH]; intros Hnd; simpl; [reflexivity|].
  inversion Hnd as [|? ? Hnin Hnd']; subst.
  replace (clean_key ((k, v) :: rest) k) with ((k, null_if_empty v) :: rest).
  - rewrite fold_clean_cons by assumption. now rewrite IH.
  - unfold clean_key, null_if_empty. simpl. rewrite String.eqb_refl.
    destruct (is_empty_string v); reflexivity.
Qed.

Lemma get_present (o : object) (key : string) :
  get o key <> VUndefined -> has o key = true.
Proof.
  intros Hg. destruct (has o key) eqn:E; [reflexivity|].
  exfalso. apply Hg, get_absent. intros Hin.
  apply has_true_iff in Hin. congruence.
Qed.

Lemma has_cleanHighlightData (highlight : value) (key : string) :
  has (cleanHighlightData highlight) key = has (spread highlight) key.
Proof. unfold has. now rewrite keys_cleanHighlightData. Qed.

(** ** The client: what each method sends and returns *)

Lemma createHighlight_run (this : ReadwiseService) (highlight : value) (w : world) :
  let req := post_highlights this [VObj (cleanHighlightData highlight)] in
  createHighlight this highlight w = (upstream w (sent w) req, after_sending w req).
Proof.
  unfold createHighlight, try_catch, bind, axios_post, send, ret, throw,
    after_sending, post_highlights. simpl.
  destruct (upstream w (sent w) _); reflexivity.
Qed.

Lemma createHighlights_run (this : ReadwiseService) (hs : list value) (w : world) :
  let req := post_highlights this
               (map (fun h => VObj (cleanHighlightData h)) hs) in
  createHighlights this (VArr hs) w
  = (upstream w (sent w) req, after_sending w req).
Proof.
  unfold createHighlights, try_catch, bind, lift, axios_post, send, ret, throw,
    after_sending, post_highlights. simpl.
  destruct (upstream w (sent w) _); reflexivity.
Qed.

Lemma createHighlights_throw (this : ReadwiseService) (highlights : value)
      (e : Error) (w : world) :
  call_map (fun h => VObj (cleanHighlightData h)) highlights = Thrown e ->
  createHighlights this highlights w = (Thrown e, w).
Proof.
  intros H. unfold createHighlights, try_catch, bind, lift, throw.
  now rewrite H.
Qed.

Lemma getHighlights_run (this : ReadwiseService) (w : world) :
  let req := get_all_highlights this in
  getHighlights this w = (upstream w (sent w) req, after_sending w req).
Proof.
  unfold getHighlights, try_catch, bind, axios_get, send, ret, throw,
    after_sending, get_all_highlights. simpl.
  destruct (upstream w (sent w) _); reflexivity.
Qed.

(** ** The dispatcher: one lemma per branch *)

Section HandlerFacts.

Variable JSON_stringify : value -> string.
Variable this : ReadwiseService.

Lemma invoke_create_highlight (arguments : value) (w : world) :
  invoke JSON_stringify this "create_highlight" arguments w
  = settle JSON_stringify (createHighlight this arguments w).
Proof.
  unfold invoke, handler_body, try_catch, bind, ret, settle. simpl.
  destruct (createHighlight this arguments w) as [[r|e] w']; reflexivity.
Qed.

Lemma invoke_create_highlights (arguments highlights : value) (w : world) :
  member_highlights arguments = Returned highlights ->
  invoke JSON_stringify this "create_highlights" arguments w
  = settle JSON_stringify (createHighlights this highlights w).
Proof.
  intros H. unfold invoke, handler_body, try_catch, bind, ret, lift, settle.
  simpl. rewrite H.
  destruct (createHighlights this highlights w) as [[r|e] w']; reflexivity.
Qed.

Lemma invoke_create_highlights_throw (arguments : value) (e : Error) (w : world) :
  member_highlights arguments = Thrown e ->
  invoke JSON_stringify this "create_highlights" arguments w
  = (Returned (failure e), w).
Proof.
  intros H. unfold invoke, handler_body, try_catch, bind, ret, lift.
  simpl. now rewrite H.
Qed.

Lemma invoke_get_highlights (arguments : value) (w : world) :
  invoke JSON_stringify this "get_highlights" arguments w
  = settle JSON_stringify (getHighlights this w).
Proof.
  unfold invoke, handler_body, try_catch, bind, ret, settle. simpl.
  destruct (getHighlights this w) as [[r|e] w']; reflexivity.
Qed.

Lemma invoke_unknown (name : string) (arguments : value) (w : world) :
  known_tool name = false ->
  invoke JSON_stringify this name arguments w
  = (Returned (failure (mkError ("Unknown tool: " ++ name))), w).
Proof.
  unfold known_tool. intros H.
  apply orb_false_iff in H as [H H3]. apply orb_false_iff in H as [H1 H2].
  unfold invoke, handler_body, try_catch, throw, ret.
  now rewrite H1, H2, H3.
Qed.

Lemma invoke_settles (name : string) (arguments : value) (w : world) :
  invoke JSON_stringify this name arguments w
  = match handler_body JSON_stringify this name arguments w with
    | (Returned result, w') => (Returned result, w')
    | (Thrown e, w') => (Returned (failure e), w')
    end.
Proof. reflexivity. Qed.

End HandlerFacts.

(** ** The regular expression on a [.env] file *)


Lemma length_app_string (s t : string) :
  String.length (s ++ t) = String.length s + String.length t.
Proof. induction s as [|a s IH]; simpl; [reflexivity | now rewrite IH]. Qed.

Lemma substring_prefix (s t : string) :
  substring 0 (String.length s) (s ++ t) = s.
Proof.
  induction s as [|a s IH]; simpl.
  - destruct t; reflexivity.
  - now rewrite IH.
Qed.

Lemma consumed_app (s rest : string) : consumed (s ++ rest) rest = s.
Proof.
  unfold consumed. rewrite length_app_string.
  replace (String.length s + String.length rest - String.length rest)
    with (String.length s) by lia.
  apply substring_prefix.
Qed.




(** The matcher, one construct at a time. *)
Section RunSteps.
Context {R : Type}.
Variables (caps : captures) (k : string -> captures -> option R) (r : R).








End RunSteps.







(** The specification's own example: the quoted token alone in the file. *)
Example token_regex_quoted :
  read_env_file (Contents ("READWISE_API_TOKEN=" ++ dq ++ "abc123" ++ dq))
  = Returned (Some "abc123").
Proof. reflexivity. Qed.

Lemma getApiToken_falls_back (env_token : option string) (dotenv : env_file) :
  truthy env_token = false ->
  getApiToken env_token dotenv
  = match read_env_file dotenv with
    | Returned (Some token) => Returned token
    | Returned None | Thrown _ => Thrown token_not_found
    end.
Proof.
  destruct env_token as [[|c t]|]; simpl; intros H; [reflexivity | discriminate | reflexivity].
Qed.

Lemma resolve_without_arguments (env_token : option string) (dotenv : env_file) :
  resolve_apiToken [] env_token dotenv = getApiToken env_token dotenv.
Proof. reflexivity. Qed.

(* ================================================================== *)
(** * The claims *)
(* ================================================================== *)

(** C1, as the code has it.  A field that arrives as the empty string is not
    dropped from the payload: it stays among the properties of the submitted
    highlight and carries [null].  This holds for the single highlight that
    [createHighlight] posts and for the element at the same index of the list
    that [createHighlights] posts. *)
Theorem C1_empty_string_fields_are_sent_as_null
        (this : ReadwiseService) (w : world)
        (hs : list value) (i : nat) (h : value) (key : string) :
  nth_error hs i = Some h ->
  get (spread h) key = VStr EmptyString ->
  (exists o,
      sent (snd (createHighlight this h w))
      = (sent w ++ [post_highlights this [VObj o]])%list
      /\ has o key = true /\ get o key = VNull)
  /\
  (exists os o,
      sent (snd (createHighlights this (VArr hs) w))
      = (sent w ++ [post_highlights this os])%list
      /\ nth_error os i = Some (VObj o)
      /\ has o key = true /\ get o key = VNull).
Proof.
  intros Hnth Hempty.
  assert (Hhas : has (cleanHighlightData h) key = true).
  { rewrite has_cleanHighlightData. apply get_present. congruence. }
  assert (Hget : get (cleanHighlightData h) key = VNull).
  { rewrite get_cleanHighlightData, Hempty. reflexivity. }
  split.
  - exists (cleanHighlightData h). rewrite createHighlight_run. simpl. auto.
  - exists (map (fun x => VObj (cleanHighlightData x)) hs), (cleanHighlightData h).
    rewrite createHighlights_run. simpl. repeat split; auto.
    rewrite nth_error_map, Hnth. reflexivity.
Qed.

(** An instance of C1's theorem: a highlight with an empty title, alone and
    as the second of two. *)
Lemma C1_witness :
  let h := VObj [("text", VStr "a"); ("title", VStr EmptyString)] in
  (exists o,
      sent (snd (createHighlight sample_service h accepting_world))
      = (sent accepting_world ++ [post_highlights sample_service [VObj o]])%list
      /\ has o "title" = true /\ get o "title" = VNull)
  /\
  (exists os o,
      sent (snd (createHighlights sample_service
                   (VArr [VObj [("text", VStr "b")]; h]) accepting_world))
      = (sent accepting_world ++ [post_highlights sample_service os])%list
      /\ nth_error os 1 = Some (VObj o)
      /\ has o "title" = true /\ get o "title" = VNull).
Proof.
  intro h.
  apply (C1_empty_string_fields_are_sent_as_null sample_service accepting_world
           [VObj [("text", VStr "b")]; h] 1 h "title"); reflexivity.
Defined.

(** C1 as the specification words it fails: for a highlight whose title is the
    empty string, the body that [createHighlight] posts still has a [title]
    property (holding [null]), so the field is not absent. *)
Lemma C1_counterexample :
  let h := VObj [("text", VStr "a"); ("title", VStr EmptyString)] in
  let payload := [("text", VStr "a"); ("title", VNull)] in
  get (spread h) "title" = VStr EmptyString
  /\ sent (snd (createHighlight sample_service h accepting_world))
     = [post_highlights sample_service [VObj payload]]
  /\ has payload "title" = true.
Proof. repeat split. Qed.

(** C2.  Whatever the tool name, the arguments and the state of the world,
    [invoke] completes with a result and never with a thrown error; whenever
    the body of its [try] block throws an error [e] (raised by the client or
    while reading the arguments), the result is
    [{ content: [{ type: "text", text: "Error: " + e.message }], isError: true }]. *)
Theorem C2_invoke_never_throws
        (JSON_stringify : value -> string) (this : ReadwiseService)
        (name : string) (arguments : value) (w : world) :
  let error_result (e : Error) :=
    {| content := [ {| type := "text"; text := "Error: " ++ message e |} ];
       isError := true |} in
  (exists result w',
      invoke JSON_stringify this name arguments w = (Returned result, w'))
  /\ (forall e w',
         handler_body JSON_stringify this name arguments w = (Thrown e, w') ->
         invoke JSON_stringify this name arguments w
         = (Returned (error_result e), w'))
  /\ (forall e w',
         createHighlight this arguments w = (Thrown e, w') ->
         invoke JSON_stringify this "create_highlight" arguments w
         = (Returned (error_result e), w'))
  /\ (forall e,
         member_highlights arguments = Thrown e ->
         invoke JSON_stringify this "create_highlights" arguments w
         = (Returned (error_result e), w))
  /\ (forall highlights e w',
         member_highlights arguments = Returned highlights ->
         createHighlights this highlights w = (Thrown e, w') ->
         invoke JSON_stringify this "create_highlights" arguments w
         = (Returned (error_result e), w'))
  /\ (forall e w',
         getHighlights this w = (Thrown e, w') ->
         invoke JSON_stringify this "get_highlights" arguments w
         = (Returned (error_result e), w')).
Proof.
  intro error_result. repeat split.
  - rewrite invoke_settles.
    destruct (handler_body JSON_stringify this name arguments w) as [[r|e] w'];
      eauto.
  - intros e w' H. now rewrite invoke_settles, H.
  - intros e w' H. now rewrite invoke_create_highlight, H.
  - intros e H. now apply invoke_create_highlights_throw.
  - intros hs e w' Hm H. now rewrite (invoke_create_highlights _ _ _ hs), H.
  - intros e w' H. now rewrite invoke_get_highlights, H.
Qed.

(** An instance of C2's theorem: the upstream answers 401 to the create
    request, and the call without arguments to [create_highlights] fails on
    reading [highlights]. *)
Lemma C2_witness :
  invoke sample_stringify sample_service "create_highlight"
         (VObj [("text", VStr "hello")]) rejecting_world
  = (Returned {| content := [ {| type := "text";
                                 text := "Error: Request failed with status code 401" |} ];
                 isError := true |},
     after_sending rejecting_world
       (post_highlights sample_service [VObj [("text", VStr "hello")]]))
  /\
  invoke sample_stringify sample_service "create_highlights"
         VUndefined rejecting_world
  = (Returned {| content := [ {| type := "text";
                                 text := "Error: Cannot read properties of undefined (reading 'highlights')" |} ];
                 isError := true |},
     rejecting_world).
Proof.
  destruct (C2_invoke_never_throws sample_stringify sample_service
              "create_highlight" (VObj [("text", VStr "hello")]) rejecting_world)
    as (_ & _ & H & _).
  destruct (C2_invoke_never_throws sample_stringify sample_service
              "create_highlights" VUndefined rejecting_world)
    as (_ & _ & _ & H' & _).
  split.
  - apply (H unauthorized). reflexivity.
  - apply (H' (mkError "Cannot read properties of undefined (reading 'highlights')")).
    reflexivity.
Defined.

(** C3, as the code has it.  The three sources are tried in order and the
    first that yields wins: the first command-line argument whenever there is
    one, even an empty one; otherwise the environment variable when it is set
    and not empty; otherwise the token that [READWISE_API_TOKEN=...] gives in
    the file.  The lookup fails, with the missing-credential error, exactly
    when there is no argument, no usable environment variable and no token in
    the file. *)
Theorem C3_resolution_order
        (args : list string) (env_token : option string) (dotenv : env_file) :
  (forall first others,
      args = first :: others ->
      resolve_apiToken args env_token dotenv = Returned first)
  /\ (forall token,
         args = [] -> env_token = Some token -> token <> EmptyString ->
         resolve_apiToken args env_token dotenv = Returned token)
  /\ (forall token,
         args = [] -> truthy env_token = false ->
         read_env_file dotenv = Returned (Some token) ->
         resolve_apiToken args env_token dotenv = Returned token)
  /\ (forall e,
         resolve_apiToken args env_token dotenv = Thrown e <->
         e = token_not_found /\ args = [] /\ truthy env_token = false
         /\ forall token, read_env_file dotenv <> Returned (Some token)).
Proof.
  split; [|split; [|split]].
  - intros first others ->. reflexivity.
  - intros token -> -> Hne. destruct token; [congruence | reflexivity].
  - intros token -> Henv Hfile.
    now rewrite resolve_without_arguments, getApiToken_falls_back, Hfile.
  - intros e. split.
    + intros H. destruct args as [|first others]; [|discriminate].
      rewrite resolve_without_arguments in H.
      destruct env_token as [[|c t]|]; try discriminate;
        rewrite getApiToken_falls_back in H by reflexivity;
        (destruct (read_env_file dotenv) as [[token|]|]; try discriminate;
         repeat split; try congruence).
    + intros (-> & -> & Henv & Hfile).
      rewrite resolve_without_arguments, getApiToken_falls_back by assumption.
      destruct (read_env_file dotenv) as [[token|]|]; try reflexivity.
      exfalso. now apply (Hfile token).
Qed.

(** An instance of C3's theorem: each source wins in its turn. *)
Lemma C3_witness :
  resolve_apiToken ["cli"] (Some "env") (Contents "READWISE_API_TOKEN=file")
  = Returned "cli"
  /\ resolve_apiToken [] (Some "env") (Contents "READWISE_API_TOKEN=file")
     = Returned "env"
  /\ resolve_apiToken [] None (Contents "READWISE_API_TOKEN=file")
     = Returned "file".
Proof.
  destruct (C3_resolution_order ["cli"] (Some "env")
              (Contents "READWISE_API_TOKEN=file")) as (Hcli & _).
  destruct (C3_resolution_order [] (Some "env")
              (Contents "READWISE_API_TOKEN=file")) as (_ & Henv & _).
  destruct (C3_resolution_order [] None
              (Contents "READWISE_API_TOKEN=file")) as (_ & _ & Hfile & _).
  split; [|split].
  - apply (Hcli "cli" []). reflexivity.
  - apply (Henv "env"); [reflexivity | reflexivity | discriminate].
  - apply (Hfile "file"); reflexivity.
Defined.

(** C3 as the specification words it fails: an empty first argument is taken
    as the token, and the environment variable is not consulted. *)
Lemma C3_counterexample :
  resolve_apiToken [EmptyString] (Some "env") NoFile = Returned EmptyString
  /\ resolve_apiToken [EmptyString] (Some "env") NoFile <> Returned "env".
Proof. split; [reflexivity | discriminate]. Qed.

(** C4.  For a name that is none of [create_highlight], [create_highlights]
    and [get_highlights], [invoke] sends nothing and returns
    [{ isError: true, content: [{ type: "text", text: "Error: Unknown tool: <name>" }] }]. *)
Theorem C4_unknown_tool
        (JSON_stringify : value -> string) (this : ReadwiseService)
        (name : string) (arguments : value) (w : world) :
  name <> "create_highlight" ->
  name <> "create_highlights" ->
  name <> "get_highlights" ->
  invoke JSON_stringify this name arguments w
  = (Returned {| content := [ {| type := "text";
                                 text := "Error: Unknown tool: " ++ name |} ];
                 isError := true |},
     w).
Proof.
  intros H1 H2 H3. apply invoke_unknown. unfold known_tool.
  apply String.eqb_neq in H1, H2, H3. now rewrite H1, H2, H3.
Qed.

(** An instance of C4's theorem: the name [nonexistent_tool]. *)
Lemma C4_witness :
  invoke sample_stringify sample_service "nonexistent_tool" (VObj [])
         accepting_world
  = (Returned {| content := [ {| type := "text";
                                 text := "Error: Unknown tool: nonexistent_tool" |} ];
                 isError := true |},
     accepting_world).
Proof.
  apply (C4_unknown_tool sample_stringify sample_service "nonexistent_tool"
           (VObj []) accepting_world); discriminate.
Defined.

(** C5, as the code has it.  [createHighlight] cleans the highlight, wraps it
    in a one-element list and sends exactly one request, a [POST] to
    [/highlights/] whose body is that list under [highlights]; called through
    the dispatcher with the arguments [{ text: "hello" }] the body is
    [{ highlights: [{ text: "hello" }] }], with no other property. *)
Theorem C5_create_one_posts_once
        (JSON_stringify : value -> string)
        (this : ReadwiseService) (h : value) (w : world) :
  sent (snd (createHighlight this h w))
  = (sent w ++ [mkRequest POST (baseURL (api this)) "/highlights/"
                  (headers (api this))
                  (Some (VObj [("highlights",
                                VArr [VObj (cleanHighlightData h)])]))])%list
  /\
  sent (snd (invoke JSON_stringify this "create_highlight"
               (VObj [("text", VStr "hello")]) w))
  = (sent w ++ [mkRequest POST (baseURL (api this)) "/highlights/"
                  (headers (api this))
                  (Some (VObj [("highlights",
                                VArr [VObj [("text", VStr "hello")]])]))])%list.
Proof.
  split.
  - rewrite createHighlight_run. reflexivity.
  - rewrite invoke_create_highlight, createHighlight_run. simpl.
    destruct (upstream w (sent w) _); reflexivity.
Qed.

(** C5 as the specification words it fails: the highlight posted for
    [{ text: "hello" }] has the single property [text]; [title] (like every
    other field that was not supplied) is missing from it, not [null]. *)
Lemma C5_counterexample :
  let posted := [("text", VStr "hello")] in
  sent (snd (invoke sample_stringify sample_service "create_highlight"
               (VObj [("text", VStr "hello")]) accepting_world))
  = [post_highlights sample_service [VObj posted]]
  /\ has posted "title" = false
  /\ get posted "title" <> VNull.
Proof. repeat split. discriminate. Qed.

(** C6.  [createHighlights] sends one request whose list is the input list
    with [cleanHighlightData] applied to each element: same length, same
    order, element [i] of the payload is the cleaned element [i] of the
    input, and equal inputs stay as repeated entries. *)
Theorem C6_create_many_cleans_elementwise
        (this : ReadwiseService) (hs : list value) (w : world) :
  let payload := map (fun h => VObj (cleanHighlightData h)) hs in
  sent (snd (createHighlights this (VArr hs) w))
  = (sent w ++ [post_highlights this payload])%list
  /\ List.length payload = List.length hs
  /\ (forall i, nth_error payload i
                = option_map (fun h => VObj (cleanHighlightData h))
                             (nth_error hs i)).
Proof.
  simpl. rewrite createHighlights_run. simpl. repeat split.
  - apply length_map.
  - intros i. apply nth_error_map.
Qed.

(** The two-element call of the tool surface: one request, both highlights,
    in the order given. *)
Example create_highlights_two_in_order :
  sent (snd (invoke sample_stringify sample_service "create_highlights"
               (VObj [("highlights",
                       VArr [VObj [("text", VStr "a")];
                             VObj [("text", VStr "b")]])])
               accepting_world))
  = [post_highlights sample_service
       [VObj [("text", VStr "a")]; VObj [("text", VStr "b")]]].
Proof. reflexivity. Qed.

(** C7.  When the client's method returns a response [r], [invoke] returns
    [{ content: [{ type: "text", text: JSON.stringify(r, null, 2) }], isError: false }]
    for each of the three tools; for [get_highlights] the text is the
    serialized form of what [getHighlights] returned. *)
Theorem C7_success_is_serialized
        (JSON_stringify : value -> string) (this : ReadwiseService)
        (arguments : value) (w : world) (r : value) (w' : world) :
  let ok_result :=
    {| content := [ {| type := "text"; text := JSON_stringify r |} ];
       isError := false |} in
  (createHighlight this arguments w = (Returned r, w') ->
   invoke JSON_stringify this "create_highlight" arguments w
   = (Returned ok_result, w'))
  /\ (forall highlights,
         member_highlights arguments = Returned highlights ->
         createHighlights this highlights w = (Returned r, w') ->
         invoke JSON_stringify this "create_highlights" arguments w
         = (Returned ok_result, w'))
  /\ (getHighlights this w = (Returned r, w') ->
      invoke JSON_stringify this "get_highlights" arguments w
      = (Returned ok_result, w')).
Proof.
  intro ok_result. repeat split.
  - intros H. now rewrite invoke_create_highlight, H.
  - intros hs Hm H. now rewrite (invoke_create_highlights _ _ _ hs), H.
  - intros H. now rewrite invoke_get_highlights, H.
Qed.

(** An instance of C7's theorem: the upstream lists three highlights. *)
Lemma C7_witness :
  invoke sample_stringify sample_service "get_highlights" (VObj []) listing_world
  = (Returned {| content := [ {| type := "text";
                                 text := sample_stringify three_highlights |} ];
                 isError := false |},
     after_sending listing_world (get_all_highlights sample_service)).
Proof.
  destruct (C7_success_is_serialized sample_stringify sample_service (VObj [])
              listing_world three_highlights
              (after_sending listing_world (get_all_highlights sample_service)))
    as (_ & _ & H).
  apply H. reflexivity.
Defined.




(** C9.  A highlight whose [text] is the empty string is not turned away by
    the client: [createHighlight] and [createHighlights] send their request
    and return what the upstream answers, and in the payload the [text]
    property holds [null], as for any other empty field. *)
Theorem C9_empty_text_is_cleaned_too
        (this : ReadwiseService) (w : world)
        (hs : list value) (i : nat) (h : value) :
  get (spread h) "text" = VStr EmptyString ->
  nth_error hs i = Some h ->
  let one := post_highlights this [VObj (cleanHighlightData h)] in
  let many := post_highlights this
                (map (fun x => VObj (cleanHighlightData x)) hs) in
  createHighlight this h w = (upstream w (sent w) one, after_sending w one)
  /\ createHighlights this (VArr hs) w
     = (upstream w (sent w) many, after_sending w many)
  /\ nth_error (map (fun x => VObj (cleanHighlightData x)) hs) i
     = Some (VObj (cleanHighlightData h))
  /\ get (cleanHighlightData h) "text" = VNull
  /\ has (cleanHighlightData h) "text" = true.
Proof.
  intros Hempty Hnth. simpl. repeat split.
  - apply createHighlight_run.
  - apply createHighlights_run.
  - rewrite nth_error_map, Hnth. reflexivity.
  - rewrite get_cleanHighlightData, Hempty. reflexivity.
  - rewrite has_cleanHighlightData. apply get_present. congruence.
Qed.

(** An instance of C9's theorem: a highlight that has only an empty text. *)
Lemma C9_witness :
  let h := VObj [("text", VStr EmptyString)] in
  let req := post_highlights sample_service [VObj [("text", VNull)]] in
  createHighlight sample_service h rejecting_world
  = (Thrown unauthorized, after_sending rejecting_world req)
  /\ get (cleanHighlightData h) "text" = VNull.
Proof.
  intros h req.
  destruct (C9_empty_text_is_cleaned_too sample_service rejecting_world
              [h] 0 h eq_refl eq_refl) as (H1 & _ & _ & H4 & _).
  split; [exact H1 | exact H4].
Defined.

(** C10.  Cleaning a cleaned highlight changes nothing, and cleaning leaves
    every property whose value is not the empty string as it was; no
    property is added or removed. *)
Theorem C10_cleanHighlightData_idempotent (h : value) (key : string) :
  cleanHighlightData (VObj (cleanHighlightData h)) = cleanHighlightData h
  /\ keys (cleanHighlightData h) = keys (spread h)
  /\ (get (spread h) key <> VStr EmptyString ->
      get (cleanHighlightData h) key = get (spread h) key).
Proof.
  repeat split.
  - unfold cleanHighlightData at 1. simpl.
    apply fold_clean_fixed. intros k.
    rewrite get_cleanHighlightData. apply null_if_empty_not_empty.
  - apply keys_cleanHighlightData.
  - intros Hne. rewrite get_cleanHighlightData. now apply null_if_empty_keeps.
Qed.

(** An instance of C10's theorem: the author survives next to an empty
    title. *)
Lemma C10_witness :
  let h := VObj [("text", VStr "a"); ("title", VStr EmptyString);
                 ("author", VStr "b")] in
  cleanHighlightData (VObj (cleanHighlightData h)) = cleanHighlightData h
  /\ get (cleanHighlightData h) "author" = VStr "b".
Proof.
  intro h.
  destruct (C10_cleanHighlightData_idempotent h "author") as (H1 & _ & H3).
  split; [exact H1 | apply H3; discriminate].
Defined.

(** Outside the three-source order: the import of the client module looks the
    token up on its own, so a token given on the command line alone does not
    get the process started. *)
Lemma import_ignores_command_line :
  index_startup ["cli"] None NoFile = ImportFailed token_not_found
  /\ resolve_apiToken ["cli"] None NoFile = Returned "cli".
Proof. split; reflexivity. Qed.

(* ================================================================== *)
(** * Further properties of the client and the dispatcher *)
(* ================================================================== *)

Lemma app_one_longer {A : Type} (l : list A) (x : A) : (l ++ [x])%list <> l.
Proof.
  intros H. apply (f_equal (@List.length A)) in H.
  rewrite length_app in H. simpl in H. lia.
Qed.


Lemma call_map_array_or_throw (f : value -> value) (v : value) :
  (exists elems, v = VArr elems /\ call_map f v = Returned (map f elems))
  \/ (exists e, call_map f v = Thrown e).
Proof. destruct v; simpl; eauto. Qed.

(** X1.  Creating one highlight is creating the one-element list of it: both
    methods send the same request and give the same answer, and so do the two
    tools when the list tool is called with [{ highlights: [h] }]. *)
Theorem X1_single_is_singleton_batch
        (JSON_stringify : value -> string)
        (this : ReadwiseService) (h : value) (w : world) :
  createHighlight this h w = createHighlights this (VArr [h]) w
  /\ invoke JSON_stringify this "create_highlight" h w
     = invoke JSON_stringify this "create_highlights"
              (VObj [("highlights", VArr [h])]) w.
Proof.
  assert (E : createHighlight this h w = createHighlights this (VArr [h]) w).
  { now rewrite createHighlight_run, createHighlights_run. }
  split; [exact E|].
  rewrite invoke_create_highlight.
  rewrite (invoke_create_highlights _ _ _ (VArr [h])) by reflexivity.
  now rewrite E.
Qed.

(** X2.  The client does not retry and does not wrap errors: when the
    upstream rejects the request of a method with an error [e], the method
    rejects with that same [e], and the request was sent exactly once. *)
Theorem X2_errors_pass_through_once
        (this : ReadwiseService) (h : value) (hs : list value)
        (w : world) (e : Error) :
  let one := post_highlights this [VObj (cleanHighlightData h)] in
  let many := post_highlights this
                (map (fun x => VObj (cleanHighlightData x)) hs) in
  let all := get_all_highlights this in
  (upstream w (sent w) one = Thrown e ->
   createHighlight this h w = (Thrown e, after_sending w one))
  /\ (upstream w (sent w) many = Thrown e ->
      createHighlights this (VArr hs) w = (Thrown e, after_sending w many))
  /\ (upstream w (sent w) all = Thrown e ->
      getHighlights this w = (Thrown e, after_sending w all)).
Proof.
  simpl. split; [|split]; intros H.
  - now rewrite createHighlight_run, H.
  - now rewrite createHighlights_run, H.
  - now rewrite getHighlights_run, H.
Qed.

(** An instance of X2's theorem: the upstream answers 401 to the listing. *)
Lemma X2_witness :
  getHighlights sample_service rejecting_world
  = (Thrown unauthorized,
     after_sending rejecting_world (get_all_highlights sample_service)).
Proof.
  destruct (X2_errors_pass_through_once sample_service VNull [] rejecting_world
              unauthorized) as (_ & _ & H).
  apply H. reflexivity.
Defined.

(** X3.  Whatever a client built from a token sends, it sends to
    [/highlights/] under the fixed base URL, with the headers
    [Authorization: Token <token>] and [Content-Type: application/json]; the
    listing is a [GET] without body, the two creations are [POST]s. *)
Theorem X3_requests_carry_the_token
        (apiToken : string) (h highlights : value) (w : world) (req : request) :
  let this := new_ReadwiseService apiToken in
  (sent (snd (createHighlight this h w)) = (sent w ++ [req])%list
   \/ sent (snd (createHighlights this highlights w)) = (sent w ++ [req])%list
   \/ sent (snd (getHighlights this w)) = (sent w ++ [req])%list) ->
  req_baseURL req = "https://readwise.io/api/v2"
  /\ req_url req = "/highlights/"
  /\ req_headers req = token_headers apiToken
  /\ (req_method req = GET <-> req_data req = None).
Proof.
  intros this H.
  assert (Hshape : req = post_highlights this [VObj (cleanHighlightData h)]
                   \/ (exists hs, req = post_highlights this hs)
                   \/ req = get_all_highlights this).
  { destruct H as [H | [H | H]].
    - rewrite createHighlight_run in H. simpl in H.
      apply app_inv_head in H. left. now inversion H.
    - right. left.
      destruct (call_map_array_or_throw
                  (fun x => VObj (cleanHighlightData x)) highlights)
        as [(elems & -> & _) | (e & He)].
      + rewrite createHighlights_run in H. simpl in H.
        apply app_inv_head in H. inversion H. eauto.
      + rewrite (createHighlights_throw _ _ e) in H by assumption.
        simpl in H. symmetry in H. now apply app_one_longer in H.
    - rewrite getHighlights_run in H. simpl in H.
      apply app_inv_head in H. right. right. now inversion H. }
  destruct Hshape as [-> | [(hs & ->) | ->]]; simpl;
    repeat split; intros; discriminate.
Qed.

(** An instance of X3's theorem: the request of a listing. *)
Lemma X3_witness :
  req_headers (get_all_highlights (new_ReadwiseService "secret"))
  = [("Authorization", "Token secret"); ("Content-Type", "application/json")].
Proof.
  apply (X3_requests_carry_the_token "secret" VNull VNull accepting_world
           (get_all_highlights (new_ReadwiseService "secret"))).
  right. right. reflexivity.
Defined.

Section DispatcherRuns.

Variable JSON_stringify : value -> string.
Variable this : ReadwiseService.

(** Every way a call of the dispatcher's [try] body can end. *)
Lemma handler_body_cases (name : string) (arguments : value) (w : world) :
  (known_tool name = false
   /\ handler_body JSON_stringify this name arguments w
      = (Thrown (unknown_tool name), w))
  \/ (known_tool name = true
      /\ exists e,
        e <> unknown_tool name
        /\ handler_body JSON_stringify this name arguments w = (Thrown e, w))
  \/ (known_tool name = true
      /\ exists req,
        req_url req = "/highlights/"
        /\ handler_body JSON_stringify this name arguments w
           = match upstream w (sent w) req with
             | Returned r => (Returned (success JSON_stringify r),
                              after_sending w req)
             | Thrown e => (Thrown e, after_sending w req)
             end).
Proof.
  unfold known_tool, handler_body.
  destruct (String.eqb name "create_highlight") eqn:E1.
  { right. right. split; [reflexivity|].
    exists (post_highlights this [VObj (cleanHighlightData arguments)]).
    split; [reflexivity|]. unfold bind, ret.
    rewrite createHighlight_run. cbv zeta.
    destruct (upstream w (sent w) _); reflexivity. }
  destruct (String.eqb name "create_highlights") eqn:E2.
  { apply String.eqb_eq in E2. subst name. right.
    unfold bind, lift, ret.
    destruct (member_highlights arguments) as [highlights|e] eqn:Hm.
    - destruct (call_map_array_or_throw
                  (fun x => VObj (cleanHighlightData x)) highlights)
        as [(elems & -> & _) | (e & He)].
      + right. split; [reflexivity|].
        exists (post_highlights this
                  (map (fun x => VObj (cleanHighlightData x)) elems)).
        split; [reflexivity|].
        rewrite createHighlights_run. cbv zeta.
        destruct (upstream w (sent w) _); reflexivity.
      + left. split; [reflexivity|]. exists e. split.
        * destruct highlights; simpl in He; inversion He; discriminate.
        * now rewrite (createHighlights_throw _ _ e).
    - left. split; [reflexivity|]. exists e. split; [|reflexivity].
      destruct arguments; simpl in Hm; inversion Hm; discriminate. }
  destruct (String.eqb name "get_highlights") eqn:E3.
  { right. right. split; [reflexivity|].
    exists (get_all_highlights this). split; [reflexivity|].
    unfold bind, ret. rewrite getHighlights_run. cbv zeta.
    destruct (upstream w (sent w) _); reflexivity. }
  left. split; reflexivity.
Qed.

End DispatcherRuns.

(** X4.  One call of [invoke] sends at most one request.  The requests sent
    before stay in the log, in order, and a request that is added goes to
    [/highlights/]. *)
Theorem X4_invoke_sends_at_most_one_request
        (JSON_stringify : value -> string) (this : ReadwiseService)
        (name : string) (arguments : value) (w : world) :
  let w' := snd (invoke JSON_stringify this name arguments w) in
  upstream w' = upstream w
  /\ (sent w' = sent w
      \/ exists req, sent w' = (sent w ++ [req])%list
                     /\ req_url req = "/highlights/").
Proof.
  cbv zeta. rewrite invoke_settles.
  destruct (handler_body_cases JSON_stringify this name arguments w)
    as [(_ & ->) | [(_ & e & _ & ->) | (_ & req & Hurl & ->)]];
    try (split; [reflexivity | left; reflexivity]).
  destruct (upstream w (sent w) req);
    (split; [reflexivity | right; exists req; split; [reflexivity | assumption]]).
Qed.

(** X5.  When the arguments of [create_highlights] do not hold an array under
    [highlights] (no arguments at all, no such key, or another kind of
    value), the call ends in an error result and nothing is sent. *)
Theorem X5_create_highlights_needs_an_array
        (JSON_stringify : value -> string) (this : ReadwiseService)
        (arguments : value) (w : world) :
  (forall elems, member_highlights arguments <> Returned (VArr elems)) ->
  exists e,
    invoke JSON_stringify this "create_highlights" arguments w
    = (Returned {| content := [ {| type := "text";
                                   text := "Error: " ++ message e |} ];
                   isError := true |}, w).
Proof.
  intros Hno.
  destruct (member_highlights arguments) as [highlights|e] eqn:Hm.
  - destruct (call_map_array_or_throw
                (fun x => VObj (cleanHighlightData x)) highlights)
      as [(elems & -> & _) | (e & He)].
    + now destruct (Hno elems).
    + exists e. rewrite (invoke_create_highlights _ _ _ highlights) by assumption.
      now rewrite (createHighlights_throw _ _ e).
  - exists e. now apply invoke_create_highlights_throw.
Qed.

(** An instance of X5's theorem: arguments without the key. *)
Lemma X5_witness :
  exists e,
    invoke sample_stringify sample_service "create_highlights"
           (VObj [("text", VStr "a")]) accepting_world
    = (Returned {| content := [ {| type := "text";
                                   text := "Error: " ++ message e |} ];
                   isError := true |}, accepting_world).
Proof.
  apply (X5_create_highlights_needs_an_array sample_stringify sample_service
           (VObj [("text", VStr "a")]) accepting_world).
  intros elems. discriminate.
Defined.

(** X6.  On an object whose property names are all different, cleaning
    gives the same properties in the same order, each value kept as it is
    except that a value that is itself the empty string becomes [null];
    values nested inside arrays or objects are not visited. *)
Theorem X6_cleaning_is_a_shallow_map (props : list (string * value)) :
  NoDup (keys props) ->
  cleanHighlightData (VObj props)
  = map (fun kv => (fst kv, if is_empty_string (snd kv) then VNull else snd kv))
        props.
Proof. intros Hnd. now apply cleanHighlightData_map. Qed.

(** An instance of X6's theorem: the empty string inside a nested object
    stays. *)
Lemma X6_witness :
  cleanHighlightData
    (VObj [("text", VStr "a"); ("note", VStr EmptyString);
           ("extra", VObj [("inner", VStr EmptyString)])])
  = [("text", VStr "a"); ("note", VNull);
     ("extra", VObj [("inner", VStr EmptyString)])].
Proof.
  apply (X6_cleaning_is_a_shallow_map
           [("text", VStr "a"); ("note", VStr EmptyString);
            ("extra", VObj [("inner", VStr EmptyString)])]).
  repeat constructor; simpl; intuition discriminate.
Defined.

(** X7.  A highlight that is [undefined], [null], a boolean or a number has
    no property to copy: [create_highlight] called with such arguments (or
    with none) does not fail on its own, it posts one empty highlight. *)
Theorem X7_missing_arguments_post_an_empty_highlight
        (JSON_stringify : value -> string) (this : ReadwiseService)
        (arguments : value) (w : world) :
  spread arguments = [] ->
  sent (snd (invoke JSON_stringify this "create_highlight" arguments w))
  = (sent w ++ [post_highlights this [VObj []]])%list.
Proof.
  intros Hs. rewrite invoke_create_highlight, createHighlight_run.
  unfold cleanHighlightData. rewrite Hs. simpl.
  destruct (upstream w (sent w) _); reflexivity.
Qed.

(** An instance of X7's theorem: the call without arguments. *)
Lemma X7_witness :
  sent (snd (invoke sample_stringify sample_service "create_highlight"
               VUndefined accepting_world))
  = [post_highlights sample_service [VObj []]].
Proof.
  apply (X7_missing_arguments_post_an_empty_highlight sample_stringify
           sample_service VUndefined accepting_world).
  reflexivity.
Defined.



(* ================================================================== *)
(** * Further properties of the credential lookup *)
(* ================================================================== *)

Lemma strip_prefix_inv (p s rest : string) :
  strip_prefix p s = Some rest -> s = p ++ rest.
Proof.
  revert s. induction p as [|a p IH]; intros s H; simpl in H.
  - now inversion H.
  - destruct s as [|b s]; [discriminate|].
    destruct (Ascii.eqb a b) eqn:E; [|discriminate].
    apply Ascii.eqb_eq in E. subst b. simpl. f_equal. now apply IH.
Qed.

(** A successful repetition took a non-empty block of admissible characters,
    and the continuation accepted what came after it. *)
Lemma plus_from_inv {R : Type} (cls : ascii -> bool) (s : string)
      (k : string -> option R) (r : R) :
  plus_from cls s k = Some r ->
  exists t rest,
    s = t ++ rest /\ t <> EmptyString /\ all_chars cls t = true
    /\ k rest = Some r.
Proof.
  induction s as [|c s IH]; simpl; [discriminate|].
  destruct (cls c) eqn:Hc; [|discriminate].
  destruct (plus_from cls s k) as [r'|] eqn:Hp.
  - intros H. inversion H. subst r'.
    destruct (IH eq_refl) as (t & rest & -> & _ & Hall & Hk).
    exists (String c t), rest. simpl. rewrite Hc, Hall.
    repeat split; [discriminate | assumption].
  - intros Hk. exists (String c EmptyString), s. simpl. rewrite Hc.
    repeat split; [discriminate | assumption].
Qed.

Lemma run_Opt_inv {R : Type} (cls : ascii -> bool) (s : string)
      (caps : captures) (k : string -> captures -> option R) (r : R) :
  run (Opt cls) s caps k = Some r ->
  k s caps = Some r
  \/ exists c rest, s = String c rest /\ cls c = true /\ k rest caps = Some r.
Proof.
  cbn [run]. destruct s as [|c rest]; [auto|].
  destruct (cls c) eqn:Hc; [|auto].
  destruct (k rest caps) as [r'|] eqn:Hk; [|auto].
  intros H. inversion H. subst r'. right. eauto.
Qed.

Lemma string_match_inv (r : regex) (text : string) (m : captures) :
  string_match r text = Some m ->
  exists pre s,
    text = pre ++ s /\ run r s [] (fun _ caps => Some caps) = Some m.
Proof.
  induction text as [|c text IH]; simpl.
  - destruct (run r EmptyString [] (fun _ caps => Some caps)) as [m'|] eqn:Hr;
      [|discriminate].
    intros H. inversion H. subst m'. exists EmptyString, EmptyString. auto.
  - destruct (run r (String c text) [] (fun _ caps => Some caps)) as [m'|] eqn:Hr.
    + intros H. inversion H. subst m'. exists EmptyString, (String c text). auto.
    + intros H. destruct (IH H) as (pre & s & -> & Hs).
      exists (String c pre), s. auto.
Qed.

Lemma all_chars_weaken (cls cls' : ascii -> bool) (s : string) :
  (forall c, cls c = true -> cls' c = true) ->
  all_chars cls s = true -> all_chars cls' s = true.
Proof.
  intros Himp. induction s as [|c s IH]; simpl; [reflexivity|].
  intros H. apply andb_true_iff in H as [Hc Hs].
  now rewrite (Himp c Hc), (IH Hs).
Qed.

Lemma value_char_not_line_break (c : ascii) :
  is_value_char c = true -> not_line_break c = true.
Proof.
  unfold is_value_char, not_line_break. rewrite !negb_true_iff.
  intros H. apply orb_false_iff in H as [H HLF].
  apply orb_false_iff in H as [_ HCR]. now rewrite HCR, HLF.
Qed.

Lemma nonspace_not_line_break (c : ascii) :
  is_nonspace c = true -> not_line_break c = true.
Proof.
  unfold is_nonspace, not_line_break. rewrite !negb_true_iff.
  intros H. apply orb_false_iff in H as [H HLF].
  apply orb_false_iff in H as [_ HCR]. now rewrite HCR, HLF.
Qed.

Section RunInversions.
Context {R : Type}.
Variables (caps : captures) (k : string -> captures -> option R) (r : R).

Lemma run_Lit_inv (l s : string) :
  run (Lit l) s caps k = Some r ->
  exists rest, s = l ++ rest /\ k rest caps = Some r.
Proof.
  cbn [run]. destruct (strip_prefix l s) as [rest|] eqn:E; [|discriminate].
  apply strip_prefix_inv in E. eauto.
Qed.

Lemma run_Seq_inv (r1 r2 : regex) (s : string) :
  run (Seq r1 r2) s caps k = Some r ->
  run r1 s caps (fun s1 caps1 => run r2 s1 caps1 k) = Some r.
Proof. intros H. exact H. Qed.

Lemma run_Group_inv (n : nat) (r1 : regex) (s : string) :
  run (Group n r1) s caps k = Some r ->
  run r1 s caps (fun rest caps1 => k rest ((n, consumed s rest) :: caps1))
  = Some r.
Proof. intros H. exact H. Qed.

Lemma run_Alt_inv (r1 r2 : regex) (s : string) :
  run (Alt r1 r2) s caps k = Some r ->
  run r1 s caps k = Some r
  \/ (run r1 s caps k = None /\ run r2 s caps k = Some r).
Proof. cbn [run]. destruct (run r1 s caps k); auto. Qed.

Lemma run_Plus_inv (cls : ascii -> bool) (s : string) :
  run (Plus cls) s caps k = Some r ->
  exists t rest,
    s = t ++ rest /\ t <> EmptyString /\ all_chars cls t = true
    /\ k rest caps = Some r.
Proof. intros H. now apply plus_from_inv in H. Qed.

End RunInversions.

(** Group 2 followed by the optional closing quote, read backwards. *)
Lemma run_value_then_quote_inv (whole s1 : string) (m : captures) :
  run (Seq (Group 2 (Plus is_value_char)) (Opt is_quote)) s1 []
      (fun rest caps1 => Some ((1, consumed whole rest) :: caps1))
  = Some m ->
  exists t tail g1,
    s1 = t ++ tail /\ t <> EmptyString
    /\ all_chars not_line_break t = true
    /\ m = [(1, g1); (2, t)].
Proof.
  intros H. apply run_Seq_inv, run_Group_inv, run_Plus_inv in H.
  destruct H as (t & tail & -> & Hne & Hall & Hk).
  cbv beta in Hk. rewrite consumed_app in Hk.
  assert (Hnl : all_chars not_line_break t = true)
    by eauto using all_chars_weaken, value_char_not_line_break.
  exists t, tail.
  apply run_Opt_inv in Hk as [Hk | (c & tail' & _ & _ & Hk)];
    inversion Hk; eauto 10.
Qed.

(** What a match of the token expression looks like, wherever it starts. *)
Lemma run_token_regex_inv (s : string) (m : captures) :
  run token_regex s [] (fun _ caps => Some caps) = Some m ->
  exists q t tail g1,
    s = "READWISE_API_TOKEN=" ++ q ++ t ++ tail
    /\ t <> EmptyString
    /\ all_chars not_line_break t = true
    /\ (q = EmptyString \/ q = String single_quote EmptyString
        \/ q = String double_quote EmptyString)
    /\ (m = [(1, g1); (2, t)] \/ m = [(1, g1); (3, t)]).
Proof.
  unfold token_regex. intros H.
  apply run_Seq_inv, run_Lit_inv in H. destruct H as (rest & -> & H).
  cbv beta in H. apply run_Group_inv, run_Alt_inv in H.
  destruct H as [HA | [_ HB]].
  - (* the quoted or plain value: groups 1 and 2 *)
    apply run_Seq_inv, run_Opt_inv in HA.
    destruct HA as [HA | (c & rest' & -> & Hc & HA)]; cbv beta in HA;
      apply run_value_then_quote_inv in HA;
      destruct HA as (t & tail & g1 & E & Hne & Hnl & ->).
    + exists EmptyString, t, tail, g1. subst rest. auto 10.
    + exists (String c EmptyString), t, tail, g1. subst rest'.
      repeat split; auto.
      unfold is_quote in Hc. apply orb_true_iff in Hc as [Hc | Hc];
        apply Ascii.eqb_eq in Hc; subst c; auto.
  - (* the run of non-blank characters: groups 1 and 3 *)
    apply run_Group_inv, run_Plus_inv in HB.
    destruct HB as (t & tail & -> & Hne & Hall & Hk).
    cbv beta in Hk. rewrite consumed_app in Hk. inversion Hk.
    exists EmptyString, t, tail. eexists. repeat split; try assumption; auto.
    eauto using all_chars_weaken, nonspace_not_line_break.
Qed.

Lemma read_env_file_inv (dotenv : env_file) (token : string) :
  read_env_file dotenv = Returned (Some token) ->
  token <> EmptyString
  /\ all_chars not_line_break token = true
  /\ exists pre q tail,
      dotenv = Contents (pre ++ "READWISE_API_TOKEN=" ++ q ++ token ++ tail)
      /\ (q = EmptyString \/ q = String single_quote EmptyString
          \/ q = String double_quote EmptyString).
Proof.
  destruct dotenv as [|e|text]; simpl; try discriminate.
  destruct (string_match token_regex text) as [m|] eqn:Hm; [|discriminate].
  apply string_match_inv in Hm as (pre & s & -> & Hrun).
  apply run_token_regex_inv in Hrun
    as (q & t & tail & g1 & -> & Hne & Hnl & Hq & Hm).
  assert (Ht : or_else (group m 2) (group m 3) = Some t).
  { destruct t as [|c t']; [congruence|].
    destruct Hm as [-> | ->]; reflexivity. }
  rewrite Ht. destruct t as [|c t']; [congruence|].
  intros H. inversion H. subst token.
  split; [discriminate|]. split; [assumption|].
  exists pre, q, tail. split; [reflexivity | assumption].
Qed.

(** X10.  A token that [getApiToken] returns is never empty, and it is
    either the environment variable as it stands or a piece of the [.env]
    file: the text that follows [READWISE_API_TOKEN=], after at most one
    opening quote, and it holds no line break. *)
Theorem X10_token_comes_from_env_or_file
        (env_token : option string) (dotenv : env_file) (token : string) :
  getApiToken env_token dotenv = Returned token ->
  token <> EmptyString
  /\ (env_token = Some token
      \/ (truthy env_token = false
          /\ all_chars not_line_break token = true
          /\ exists pre q tail,
              dotenv = Contents (pre ++ "READWISE_API_TOKEN=" ++ q
                                     ++ token ++ tail)
              /\ (q = EmptyString \/ q = String single_quote EmptyString
                  \/ q = String double_quote EmptyString))).
Proof.
  intros H.
  assert (Hfile : truthy env_token = false ->
                  read_env_file dotenv = Returned (Some token)).
  { intros Henv. rewrite getApiToken_falls_back in H by assumption.
    destruct (read_env_file dotenv) as [[t|]|]; congruence. }
  destruct env_token as [[|c t]|].
  - destruct (read_env_file_inv _ _ (Hfile eq_refl)) as (? & ? & ?). auto.
  - simpl in H. inversion H. split; [discriminate | now left].
  - destruct (read_env_file_inv _ _ (Hfile eq_refl)) as (? & ? & ?). auto.
Qed.

(** An instance of X10's theorem: the token is taken out of a longer file. *)
Lemma X10_witness :
  "abc" <> EmptyString
  /\ (None = Some "abc"
      \/ (truthy None = false
          /\ all_chars not_line_break "abc" = true
          /\ exists pre q tail,
              Contents ("READWISE_API_TOKEN='abc'" ++ String LF "X=1")
              = Contents (pre ++ "READWISE_API_TOKEN=" ++ q ++ "abc" ++ tail)
              /\ (q = EmptyString \/ q = String single_quote EmptyString
                  \/ q = String double_quote EmptyString))).
Proof.
  apply (X10_token_comes_from_env_or_file None
           (Contents ("READWISE_API_TOKEN='abc'" ++ String LF "X=1")) "abc").
  reflexivity.
Defined.











(** X13.  At start-up the command line only chooses which token is used.
    Whether the process starts is decided by the environment and the file
    alone: it starts exactly when [getApiToken] finds a token there, the
    failure of that lookup ends the import whatever the arguments are, and
    the exit with status 1 after the usage message is never taken. *)
Theorem X13_startup_depends_on_env_and_file
        (args : list string) (env_token : option string) (dotenv : env_file) :
  (forall code, index_startup args env_token dotenv <> Exited code)
  /\ (forall e,
         index_startup args env_token dotenv = ImportFailed e
         <-> getApiToken env_token dotenv = Thrown e)
  /\ (forall apiToken,
         index_startup args env_token dotenv = Started apiToken
         <-> (exists found, getApiToken env_token dotenv = Returned found)
             /\ resolve_apiToken args env_token dotenv = Returned apiToken).
Proof.
  unfold index_startup.
  destruct (getApiToken env_token dotenv) as [found|e0] eqn:Hget.
  - assert (Hres : exists t, resolve_apiToken args env_token dotenv = Returned t).
    { unfold resolve_apiToken. destruct (Nat.ltb 0 (List.length args)); eauto. }
    destruct Hres as [t Hres]. rewrite Hres.
    split; [|split].
    + discriminate.
    + intros e. split; discriminate.
    + intros apiToken. split.
      * intros H. inversion H. eauto.
      * intros [_ H]. congruence.
  - split; [|split].
    + discriminate.
    + intros e. split; congruence.
    + intros apiToken. split; [discriminate|].
      intros [[found Hf] _]. discriminate.
Qed.
